(** * slsim.lensed_population_base

    A shallow embedding of [slsim/lensed_population_base.py]: the abstract
    base class [LensedPopulationBase], its validating constructor and its
    four abstract operations, together with the small part of the Python
    object model the class relies on (instance dictionaries, the warnings
    channel, exceptions, and the [abc] instantiation check). *)

From Stdlib Require Import PrimFloat.
From stdpp Require Import gmap strings list fin_maps.

#[local] Set Warnings "-inexact-float,-register-all".

Local Open Scope Z_scope.

(** ** Python values, objects and the store *)

(** Object references. *)
Definition loc := positive.

(** Values as the constructor sees them: the [None] singleton, immediate
    scalars, and references to objects living in the store.  Two values are
    the same object exactly when they are equal here. *)
Inductive value :=
| VNone
| VBool (b : bool)
| VInt (z : Z)
| VFloat (f : float)
| VStr (s : string)
| VRef (l : loc).

(** [x is None] *)
Definition is_none (v : value) : bool :=
  match v with VNone => true | _ => false end.

(** An instance: the name of its class and its [__dict__]. *)
Record object := Obj { obj_class : string; obj_dict : gmap string value }.

(** Why the interpreter itself raised a [TypeError].  The wording of these
    messages changes from one Python version to the next; what is kept here
    is what they report: the class that is abstract together with its
    abstract methods, a keyword that fits no parameter, arguments given to a
    class that takes none, an [__init__] that returned a value. *)
Inductive type_error :=
| AbstractClass (cls : string) (abstract : gset string)
| UnexpectedKeyword
| TakesNoArguments (cls : string)
| InitReturnedValue.

(** Exceptions raised by the code under study.  [ValueError] carries the
    message the source gives it, [AttributeError] the name that was not
    found. *)
Inductive exn :=
| ValueError (msg : string)
| TypeError (cause : type_error)
| AttributeError (name : string).

(** The interpreter state a call can touch: the store of instances and the
    messages handed to [warnings.warn] so far, oldest first. *)
Record state := State { heap : gmap loc object; warnings : list string }.

(** ** Computations: state threaded through, exceptions propagate *)

Inductive outcome (A : Type) :=
| Ret (a : A)
| Raise (e : exn).
Arguments Ret {A} a.
Arguments Raise {A} e.

Definition M (A : Type) : Type := state → outcome A * state.

#[global] Instance M_ret : MRet M := λ A a st, (Ret a, st).

#[global] Instance M_bind : MBind M := λ A B k m st,
  match m st with
  | (Ret a, st') => k a st'
  | (Raise e, st') => (Raise e, st')
  end.

(** [raise e] *)
Definition raise {A} (e : exn) : M A := λ st, (Raise e, st).

(** [warnings.warn(msg)]: the message is reported and execution goes on
    (no warnings filter turns the warning into an exception). *)
Definition warn (msg : string) : M unit :=
  λ st, (Ret tt, State (heap st) (warnings st ++ [msg])).

(** [object.__new__]: a fresh instance with an empty [__dict__]. *)
Definition alloc (cls : string) : M loc :=
  λ st, let l := fresh (dom (heap st)) in
        (Ret l, State (<[l := Obj cls ∅]> (heap st)) (warnings st)).

(** Writing one attribute into an instance. *)
Definition set_attr (name : string) (v : value) (o : object) : object :=
  Obj (obj_class o) (<[name := v]> (obj_dict o)).

(** [obj.name = v] through the default [object.__setattr__]: the binding
    goes into the instance dictionary.  The class defines neither
    [__setattr__], [__slots__] nor properties, so this is what an assignment
    does, inside the constructor and outside of it alike.  References handed
    to methods always denote allocated instances. *)
Definition setattr (self : loc) (name : string) (v : value) : M unit :=
  λ st, (Ret tt, State (alter (set_attr name v) self (heap st)) (warnings st)).

(** Reading [obj.name] from the instance dictionary in a given state. *)
Definition attr (st : state) (l : loc) (name : string) : option value :=
  o ← heap st !! l; obj_dict o !! name.

(** ** The external cosmology constructor

    [astropy.cosmology.FlatLambdaCDM(H0=..., Om0=...)] belongs to a library
    outside this repository.  It is modelled as building a new instance of
    class [FlatLambdaCDM] that records the two arguments it was given; the
    import that precedes the call is taken to succeed. *)
Definition FlatLambdaCDM (H0 Om0 : value) : M value :=
  l ← alloc "FlatLambdaCDM";
  setattr l "H0" H0;;
  setattr l "Om0" Om0;;
  mret (VRef l).

(** A value is a flat Lambda-CDM model with the given parameters. *)
Definition is_FlatLambdaCDM (st : state) (v : value) (H0 Om0 : value) : Prop :=
  ∃ l, v = VRef l
       ∧ obj_class <$> heap st !! l = Some "FlatLambdaCDM"
       ∧ attr st l "H0" = Some H0
       ∧ attr st l "Om0" = Some Om0.

(** ** Calling the constructor

    The seven parameters of [__init__] besides [self]; each is either left
    out by the caller ([None] here) or given a value. *)
Record init_args := InitArgs {
  arg_sky_area : option value;
  arg_cosmo : option value;
  arg_lightcurve_time : option value;
  arg_sn_type : option value;
  arg_sn_absolute_mag_band : option value;
  arg_sn_absolute_zpsys : option value;
  arg_sn_modeldir : option value
}.

(** The binding a parameter receives: every default in the signature is
    [None]. *)
Definition bound (a : option value) : value := default VNone a.

Module LensedPopulationBase.

Definition name : string := "LensedPopulationBase".

Definition __init__ (self : loc) (a : init_args) : M value :=
  let sky_area := bound (arg_sky_area a) in
  let cosmo := bound (arg_cosmo a) in
  let lightcurve_time := bound (arg_lightcurve_time a) in
  let sn_type := bound (arg_sn_type a) in
  let sn_absolute_mag_band := bound (arg_sn_absolute_mag_band a) in
  let sn_absolute_zpsys := bound (arg_sn_absolute_zpsys a) in
  let sn_modeldir := bound (arg_sn_modeldir a) in
  setattr self "lightcurve_time" lightcurve_time;;
  setattr self "sn_type" sn_type;;
  setattr self "sn_absolute_mag_band" sn_absolute_mag_band;;
  setattr self "sn_absolute_zpsys" sn_absolute_zpsys;;
  setattr self "sn_modeldir" sn_modeldir;;
  (if is_none sky_area
   then raise (ValueError "No sky area provided. Please provide needed sky area.")
   else mret tt);;
  setattr self "sky_area" sky_area;;
  cosmo ← (if is_none cosmo
           then
             warn "No cosmology provided, instead uses flat LCDM with default parameters";;
             FlatLambdaCDM (VInt 70) (VFloat 0.3)
           else mret cosmo);
  setattr self "cosmo" cosmo;;
  mret VNone.

(** The four abstract operations: each body is [pass]. *)
Definition select_lens_at_random (self : loc) : M value := mret VNone.

Definition deflector_number (self : loc) : M value := mret VNone.

Definition source_number (self : loc) : M value := mret VNone.

Definition draw_population (self : loc) (kwargs : gmap string value) : M value :=
  mret VNone.

End LensedPopulationBase.

(** ** Classes, abstract methods and instantiation *)

(** A function stored in a class body, by the shape of its signature. *)
Inductive func :=
| FInit (f : loc → init_args → M value)
| FNoArgs (f : loc → M value)
| FKwargs (f : loc → gmap string value → M value).

(** A class attribute: the function and its [__isabstractmethod__] flag
    (set by the [@abstractmethod] decorator). *)
Record method := Method { isabstractmethod : bool; m_func : func }.

(** A class statement: name, base class and body.  [LensedPopulationBase]
    derives from [abc.ABC], which only supplies the metaclass, so it is a
    root here.  Only what is needed to call the constructor and the
    operations through a subclass is kept: one base per class and bodies made
    of function definitions; several bases and other kinds of class
    attributes are not modelled. *)
Inductive pyclass :=
| Class (cname : string) (base : option pyclass) (namespace : gmap string method).

Definition class_name (c : pyclass) : string :=
  match c with Class n _ _ => n end.

(** Attribute lookup on a class, along the chain of bases. *)
Fixpoint class_getattr (c : pyclass) (n : string) : option method :=
  match c with
  | Class _ b ns =>
      match ns !! n with
      | Some m => Some m
      | None => match b with Some b' => class_getattr b' n | None => None end
      end
  end.

Definition is_abstract_attr (c : pyclass) (n : string) : bool :=
  match class_getattr c n with
  | Some m => isabstractmethod m
  | None => false
  end.

(** [cls.__abstractmethods__] as [ABCMeta.__new__] computes it: the abstract
    names of the class body, and the abstract names of the base that still
    resolve to an abstract function on the new class. *)
Fixpoint abstractmethods (c : pyclass) : gset string :=
  match c with
  | Class _ b ns =>
      dom (filter (λ kv, Is_true (isabstractmethod kv.2)) ns)
      ∪ match b with
        | Some b' => filter (λ n, Is_true (is_abstract_attr c n)) (abstractmethods b')
        | None => ∅
        end
  end.

Definition init_params : list string :=
  ["sky_area"; "cosmo"; "lightcurve_time"; "sn_type"; "sn_absolute_mag_band";
   "sn_absolute_zpsys"; "sn_modeldir"].

Definition init_args_of (kw : gmap string value) : init_args :=
  InitArgs (kw !! "sky_area") (kw !! "cosmo") (kw !! "lightcurve_time")
           (kw !! "sn_type") (kw !! "sn_absolute_mag_band")
           (kw !! "sn_absolute_zpsys") (kw !! "sn_modeldir").

Definition given (n : string) (a : option value) : gmap string value :=
  match a with Some v => {[ n := v ]} | None => ∅ end.

Definition kwargs_of (a : init_args) : gmap string value :=
  given "sky_area" (arg_sky_area a) ∪ given "cosmo" (arg_cosmo a)
  ∪ given "lightcurve_time" (arg_lightcurve_time a)
  ∪ given "sn_type" (arg_sn_type a)
  ∪ given "sn_absolute_mag_band" (arg_sn_absolute_mag_band a)
  ∪ given "sn_absolute_zpsys" (arg_sn_absolute_zpsys a)
  ∪ given "sn_modeldir" (arg_sn_modeldir a).

(** Calling a function with keyword arguments: the keywords must fit the
    signature. *)
Definition call (f : func) (self : loc) (kw : gmap string value) : M value :=
  match f with
  | FInit g =>
      if decide (dom kw ⊆ list_to_set init_params)
      then g self (init_args_of kw)
      else raise (TypeError UnexpectedKeyword)
  | FNoArgs g =>
      if decide (kw = ∅) then g self
      else raise (TypeError UnexpectedKeyword)
  | FKwargs g => g self kw
  end.

(** Calling the function found under [__init__] with constructor arguments. *)
Definition call_init (f : func) (self : loc) (a : init_args) : M value :=
  match f with
  | FInit g => g self a
  | _ => call f self (kwargs_of a)
  end.

(** [C.n(self, ...)] with keyword arguments [kw]: the function is looked up on the class [C]. *)
Definition call_method (c : pyclass) (n : string) (self : loc)
    (kw : gmap string value) : M value :=
  match class_getattr c n with
  | Some m => call (m_func m) self kw
  | None => raise (AttributeError n)
  end.

(** [super().n(...)] with keyword arguments [kw] inside a method of class [c]: lookup starts at the
    base of [c]. *)
Definition call_super (c : pyclass) (n : string) (self : loc)
    (kw : gmap string value) : M value :=
  match c with
  | Class _ (Some b) _ => call_method b n self kw
  | Class _ None _ => raise (AttributeError n)
  end.

(** [C(...)]: [object.__new__] refuses a class that still has abstract
    methods; otherwise a fresh instance is built and [__init__] runs on it.
    An exception in [__init__] propagates and no instance is returned. *)
Definition instantiate (c : pyclass) (a : init_args) : M value :=
  if decide (abstractmethods c = ∅) then
    self ← alloc (class_name c);
    r ← match class_getattr c "__init__" with
        | Some m => call_init (m_func m) self a
        | None =>
            if decide (kwargs_of a = ∅) then mret VNone
            else raise (TypeError (TakesNoArguments (class_name c)))
        end;
    if is_none r then mret (VRef self)
    else raise (TypeError InitReturnedValue)
  else
    raise (TypeError (AbstractClass (class_name c) (abstractmethods c))).

(** The class object [LensedPopulationBase] itself. *)
Definition LensedPopulationBase_init : method :=
  Method false (FInit LensedPopulationBase.__init__).

Definition LensedPopulationBase_cls : pyclass :=
  Class LensedPopulationBase.name None
    (<["__init__" := LensedPopulationBase_init]>
     (<["select_lens_at_random" :=
          Method true (FNoArgs LensedPopulationBase.select_lens_at_random)]>
     (<["deflector_number" :=
          Method true (FNoArgs LensedPopulationBase.deflector_number)]>
     (<["source_number" :=
          Method true (FNoArgs LensedPopulationBase.source_number)]>
     (<["draw_population" :=
          Method true (FKwargs LensedPopulationBase.draw_population)]> ∅))))).

Definition abstract_operations : list string :=
  ["select_lens_at_random"; "deflector_number"; "source_number"; "draw_population"].

(** [c] derives, directly or through intermediate classes, from [b]. *)
Inductive subclass_of (b : pyclass) : pyclass → Prop :=
| subclass_direct n ns : subclass_of b (Class n (Some b) ns)
| subclass_step n c ns : subclass_of b c → subclass_of b (Class n (Some c) ns).

(** A concrete population class: a subclass of [LensedPopulationBase] that
    overrides every abstract operation and keeps the base constructor. *)
Definition concrete_subclass (c : pyclass) : Prop :=
  subclass_of LensedPopulationBase_cls c
  ∧ abstractmethods c = ∅
  ∧ class_getattr c "__init__" = Some LensedPopulationBase_init.

(** An example of such a class: the four operations are overridden, the
    constructor is inherited. *)
Module GalaxyPop.

Definition select_lens_at_random (self : loc) : M value := mret (VStr "lens").

Definition deflector_number (self : loc) : M value := mret (VInt 3).

Definition source_number (self : loc) : M value := mret (VInt 5).

Definition draw_population (self : loc) (kwargs : gmap string value) : M value :=
  mret (VStr "population").

End GalaxyPop.

Definition GalaxyPop_cls : pyclass :=
  Class "GalaxyPop" (Some LensedPopulationBase_cls)
    (<["select_lens_at_random" := Method false (FNoArgs GalaxyPop.select_lens_at_random)]>
     (<["deflector_number" := Method false (FNoArgs GalaxyPop.deflector_number)]>
     (<["source_number" := Method false (FNoArgs GalaxyPop.source_number)]>
     (<["draw_population" := Method false (FKwargs GalaxyPop.draw_population)]> ∅)))).

(** The state before anything has been allocated or reported. *)
Definition st0 : state := State ∅ [].

(** ** Closed forms used by the statements *)

(** The instance dictionary once the five optional attributes have been
    assigned on top of [d]. *)
Definition optional_dict (a : init_args) (d : gmap string value) : gmap string value :=
  <["sn_modeldir" := bound (arg_sn_modeldir a)]>
  (<["sn_absolute_zpsys" := bound (arg_sn_absolute_zpsys a)]>
  (<["sn_absolute_mag_band" := bound (arg_sn_absolute_mag_band a)]>
  (<["sn_type" := bound (arg_sn_type a)]>
  (<["lightcurve_time" := bound (arg_lightcurve_time a)]> d)))).

Definition no_sky_area_msg : string :=
  "No sky area provided. Please provide needed sky area.".

Definition no_cosmo_msg : string :=
  "No cosmology provided, instead uses flat LCDM with default parameters".

(** The reference [C(...)] hands out in state [st]. *)
Definition new_instance (st : state) : loc := fresh (dom (heap st)).

(** How a call stores an optional argument: [None] when it was left out,
    the very value when it was given. *)
Definition stored_as_given (st : state) (l : loc) (n : string) (a : option value) : Prop :=
  match a with
  | None => attr st l n = Some VNone
  | Some v => attr st l n = Some v
  end.

(** The seven attributes the constructor stores. *)
Definition stored_fields : list string :=
  ["sky_area"; "cosmo"; "lightcurve_time"; "sn_type"; "sn_absolute_mag_band";
   "sn_absolute_zpsys"; "sn_modeldir"].

(** An attribute is read-only when no assignment to it changes what is read
    back, be it because the assignment raises or because it is ignored. *)
Definition read_only (st : state) (l : loc) (n : string) : Prop :=
  ∀ v r st', setattr l n v st = (r, st') → attr st' l n = attr st l n.

(** The five attributes assigned before the sky area is checked. *)
Definition optional_fields : list string :=
  ["lightcurve_time"; "sn_type"; "sn_absolute_mag_band"; "sn_absolute_zpsys";
   "sn_modeldir"].

(** An operation is either still abstract on a class or resolved there to a
    function that is not abstract. *)
Definition abstract_or_implemented (c : pyclass) (n : string) : Prop :=
  n ∈ abstractmethods c
  ∨ ∃ m, class_getattr c n = Some m ∧ isabstractmethod m = false.

(** ** States and classes used as examples *)

(** Calls used as examples. *)
Definition args_sky_area_only (sky_area : value) : init_args :=
  InitArgs (Some sky_area) None None None None None None.

Definition args_no_sky_area : init_args :=
  InitArgs None (Some (VRef 1%positive)) None (Some (VStr "Ia")) None None None.

Definition args_sn_type_only : init_args :=
  InitArgs None None None (Some (VStr "Ia")) None None None.

Definition args_with_cosmo : init_args :=
  InitArgs (Some (VFloat 0.1)) (Some (VRef 1%positive)) None None None None None.

Definition args_supernova : init_args :=
  InitArgs (Some (VFloat 0.1)) None None (Some (VStr "Ia")) (Some (VStr "bessellb"))
           None (Some (VStr "/data/SALT3.NIR_WAVEEXT")).

(** A state in which a cosmology object already lives at reference 1. *)
Definition st_with_cosmo : state :=
  State {[ 1%positive := Obj "FlatLambdaCDM"
                             (<["Om0" := VFloat 0.25]> (<["H0" := VInt 67]> ∅)) ]} [].

(** A state holding one freshly allocated, still empty instance. *)
Definition st_new : state := State {[ 1%positive := Obj "GalaxyPop" ∅ ]} [].

(** A subclass that overrides only [deflector_number]. *)
Definition PartialPop_ns : gmap string method :=
  {[ "deflector_number" := Method false (FNoArgs GalaxyPop.deflector_number) ]}.

(** A subclass of [GalaxyPop] that only redefines [deflector_number]. *)
Definition BrightGalaxyPop_cls : pyclass :=
  Class "BrightGalaxyPop" (Some GalaxyPop_cls)
    {[ "deflector_number" := Method false (FNoArgs (λ _, mret (VInt 1))) ]}.

(** A state in which instance 1 already carries an attribute of its own. *)
Definition st_tagged : state :=
  State (<[ 2%positive := Obj "FlatLambdaCDM"
                              (<["Om0" := VFloat 0.25]> (<["H0" := VInt 67]> ∅)) ]>
         {[ 1%positive := Obj "GalaxyPop" {[ "tag" := VStr "survey" ]} ]}) ["earlier"].

(** A subclass of the partial class above that adds nothing of its own. *)
Definition FaintPartialPop_cls : pyclass :=
  Class "FaintPartialPop"
    (Some (Class "PartialPop" (Some LensedPopulationBase_cls) PartialPop_ns)) ∅.

(** ** Stepping through computations *)

Lemma bind_Ret {A B} (m : M A) (k : A → M B) st a st' :
  m st = (Ret a, st') → (m ≫= k) st = k a st'.
Proof. intros H. unfold mbind, M_bind. now rewrite H. Qed.

Lemma bind_Raise {A B} (m : M A) (k : A → M B) st e st' :
  m st = (Raise e, st') → (m ≫= k) st = (Raise e, st').
Proof. intros H. unfold mbind, M_bind. now rewrite H. Qed.

Lemma setattr_insert l n v cn d h w :
  setattr l n v (State (<[l := Obj cn d]> h) w)
  = (Ret tt, State (<[l := Obj cn (<[n := v]> d)]> h) w).
Proof. unfold setattr. cbn [heap warnings]. now rewrite alter_insert_eq. Qed.

Lemma setattr_insert_ne l l' n v o cn d h w :
  l ≠ l' →
  setattr l n v (State (<[l' := o]> (<[l := Obj cn d]> h)) w)
  = (Ret tt, State (<[l' := o]> (<[l := Obj cn (<[n := v]> d)]> h)) w).
Proof.
  intros Hne. unfold setattr. cbn [heap warnings].
  rewrite alter_insert_ne by congruence. now rewrite alter_insert_eq.
Qed.

Lemma attr_insert l cn d h w n :
  attr (State (<[l := Obj cn d]> h) w) l n = d !! n.
Proof. unfold attr. cbn [heap]. now rewrite lookup_insert_eq. Qed.

Lemma attr_insert_ne l l' o cn d h w n :
  l ≠ l' →
  attr (State (<[l' := o]> (<[l := Obj cn d]> h)) w) l n = d !! n.
Proof.
  intros Hne. unfold attr. cbn [heap].
  rewrite lookup_insert_ne by congruence. now rewrite lookup_insert_eq.
Qed.

Lemma is_none_true v : is_none v = true ↔ v = VNone.
Proof. destruct v; cbn; split; congruence. Qed.

Lemma is_none_false v : is_none v = false ↔ v ≠ VNone.
Proof. destruct v; cbn; split; congruence. Qed.

Lemma FlatLambdaCDM_run H0 Om0 h w :
  FlatLambdaCDM H0 Om0 (State h w)
  = (Ret (VRef (fresh (dom h))),
     State (<[fresh (dom h) :=
               Obj "FlatLambdaCDM" (<["Om0" := Om0]> (<["H0" := H0]> ∅))]> h) w).
Proof.
  unfold FlatLambdaCDM.
  erewrite bind_Ret by (unfold alloc; cbn [heap warnings]; reflexivity).
  erewrite bind_Ret by apply setattr_insert.
  erewrite bind_Ret by apply setattr_insert.
  reflexivity.
Qed.

Lemma fresh_insert_ne (l : loc) (o : object) (h : gmap loc object) :
  l ≠ fresh (dom (<[l := o]> h)).
Proof.
  intros Heq. apply (is_fresh (dom (<[l := o]> h))).
  rewrite <- Heq. rewrite dom_insert_L. set_solver.
Qed.

Lemma fresh_insert_None (l : loc) (o : object) (h : gmap loc object) :
  h !! fresh (dom (<[l := o]> h)) = None.
Proof.
  apply not_elem_of_dom. intros Hin.
  apply (is_fresh (dom (<[l := o]> h))).
  revert Hin. generalize (fresh (dom (<[l := o]> h))). intros k Hin.
  rewrite dom_insert_L. apply elem_of_union_r. exact Hin.
Qed.

(** ** The constructor body, case by case *)

Ltac assign := erewrite bind_Ret by apply setattr_insert.

Ltac assign_optional :=
  cbv beta zeta delta [LensedPopulationBase.__init__]; do 5 assign.

Section init_run.

Variables (self : loc) (cn : string) (d : gmap string value).
Variables (h : gmap loc object) (w : list string) (a : init_args).

Let before : state := State (<[self := Obj cn d]> h) w.

Lemma init_no_sky_area :
  bound (arg_sky_area a) = VNone →
  LensedPopulationBase.__init__ self a before
  = (Raise (ValueError no_sky_area_msg),
     State (<[self := Obj cn (optional_dict a d)]> h) w).
Proof.
  intros Hsky. subst before. assign_optional.
  rewrite Hsky. reflexivity.
Qed.

Lemma init_given_cosmo :
  bound (arg_sky_area a) ≠ VNone →
  bound (arg_cosmo a) ≠ VNone →
  LensedPopulationBase.__init__ self a before
  = (Ret VNone,
     State (<[self := Obj cn (<["cosmo" := bound (arg_cosmo a)]>
                              (<["sky_area" := bound (arg_sky_area a)]>
                               (optional_dict a d)))]> h) w).
Proof.
  intros Hsky%is_none_false Hcosmo%is_none_false. subst before. assign_optional.
  rewrite Hsky, Hcosmo.
  erewrite bind_Ret by reflexivity. assign.
  erewrite bind_Ret by reflexivity. assign.
  reflexivity.
Qed.

Lemma init_default_cosmo :
  bound (arg_sky_area a) ≠ VNone →
  bound (arg_cosmo a) = VNone →
  ∃ k, k ≠ self ∧ h !! k = None ∧
    LensedPopulationBase.__init__ self a before
    = (Ret VNone,
       State (<[k := Obj "FlatLambdaCDM"
                       (<["Om0" := VFloat 0.3]> (<["H0" := VInt 70]> ∅))]>
              (<[self := Obj cn (<["cosmo" := VRef k]>
                                 (<["sky_area" := bound (arg_sky_area a)]>
                                  (optional_dict a d)))]> h))
             (w ++ [no_cosmo_msg])).
Proof.
  intros Hsky%is_none_false Hcosmo. subst before.
  eexists. split; [apply not_eq_sym, fresh_insert_ne |].
  split; [apply fresh_insert_None |].
  assign_optional. rewrite Hsky, Hcosmo. cbn [is_none].
  erewrite bind_Ret by reflexivity. assign.
  erewrite bind_Ret.
  2:{ erewrite bind_Ret by (unfold warn; cbn [heap warnings]; reflexivity).
      apply FlatLambdaCDM_run. }
  erewrite bind_Ret by (apply setattr_insert_ne, fresh_insert_ne).
  reflexivity.
Qed.

End init_run.

(** ** Instantiating a concrete subclass *)

Lemma instantiate_concrete c a st :
  concrete_subclass c →
  instantiate c a st
  = (r ← LensedPopulationBase.__init__ (new_instance st) a;
     if is_none r then mret (VRef (new_instance st))
     else raise (TypeError InitReturnedValue))
      (State (<[new_instance st := Obj (class_name c) ∅]> (heap st)) (warnings st)).
Proof.
  intros (_ & Habs & Hinit). unfold instantiate.
  rewrite decide_True by exact Habs.
  erewrite bind_Ret by (unfold alloc; reflexivity).
  rewrite Hinit. reflexivity.
Qed.

Lemma instantiate_no_sky_area c a st :
  concrete_subclass c →
  bound (arg_sky_area a) = VNone →
  instantiate c a st
  = (Raise (ValueError no_sky_area_msg),
     State (<[new_instance st := Obj (class_name c) (optional_dict a ∅)]> (heap st))
           (warnings st)).
Proof.
  intros Hc Hsky. rewrite instantiate_concrete by exact Hc.
  erewrite bind_Raise by (apply init_no_sky_area; exact Hsky). reflexivity.
Qed.

Lemma instantiate_given_cosmo c a st :
  concrete_subclass c →
  bound (arg_sky_area a) ≠ VNone →
  bound (arg_cosmo a) ≠ VNone →
  instantiate c a st
  = (Ret (VRef (new_instance st)),
     State (<[new_instance st :=
               Obj (class_name c)
                   (<["cosmo" := bound (arg_cosmo a)]>
                    (<["sky_area" := bound (arg_sky_area a)]> (optional_dict a ∅)))]>
            (heap st))
           (warnings st)).
Proof.
  intros Hc Hsky Hcosmo. rewrite instantiate_concrete by exact Hc.
  erewrite bind_Ret by (apply init_given_cosmo; assumption). reflexivity.
Qed.

Lemma instantiate_default_cosmo c a st :
  concrete_subclass c →
  bound (arg_sky_area a) ≠ VNone →
  bound (arg_cosmo a) = VNone →
  ∃ k, k ≠ new_instance st ∧ heap st !! k = None ∧
    instantiate c a st
    = (Ret (VRef (new_instance st)),
       State (<[k := Obj "FlatLambdaCDM"
                       (<["Om0" := VFloat 0.3]> (<["H0" := VInt 70]> ∅))]>
              (<[new_instance st :=
                  Obj (class_name c)
                      (<["cosmo" := VRef k]>
                       (<["sky_area" := bound (arg_sky_area a)]> (optional_dict a ∅)))]>
               (heap st)))
             (warnings st ++ [no_cosmo_msg])).
Proof.
  intros Hc Hsky Hcosmo. rewrite instantiate_concrete by exact Hc.
  destruct (init_default_cosmo (new_instance st) (class_name c) ∅ (heap st)
              (warnings st) a Hsky Hcosmo) as (k & Hk & Hnew & Hrun).
  exists k. split; [exact Hk |]. split; [exact Hnew |].
  erewrite bind_Ret by exact Hrun. reflexivity.
Qed.

Lemma new_instance_fresh st : heap st !! new_instance st = None.
Proof. unfold new_instance. apply not_elem_of_dom. apply is_fresh. Qed.

(** Whatever the cosmology argument, a successful construction leaves the
    new instance with the seven attributes, a cosmology that is not [None],
    and every older object as it was. *)
Lemma instantiate_success c a st :
  concrete_subclass c →
  bound (arg_sky_area a) ≠ VNone →
  ∃ st' cv,
    instantiate c a st = (Ret (VRef (new_instance st)), st')
    ∧ cv ≠ VNone
    ∧ (∀ n, attr st' (new_instance st) n
            = (<["cosmo" := cv]>
               (<["sky_area" := bound (arg_sky_area a)]> (optional_dict a ∅))) !! n)
    ∧ (∀ l, is_Some (heap st !! l) → heap st' !! l = heap st !! l).
Proof.
  intros Hc Hsky.
  destruct (is_none (bound (arg_cosmo a))) eqn:Hcosmo.
  - apply is_none_true in Hcosmo.
    destruct (instantiate_default_cosmo c a st Hc Hsky Hcosmo)
      as (k & Hk & Hnew & Hrun).
    eexists _, (VRef k). split; [exact Hrun |]. split; [discriminate |]. split.
    + intros n. apply attr_insert_ne. congruence.
    + intros l [o Hl]. cbn [heap].
      rewrite !lookup_insert_ne; [reflexivity | |].
      * intros <-. rewrite new_instance_fresh in Hl. discriminate.
      * intros <-. rewrite Hnew in Hl. discriminate.
  - apply is_none_false in Hcosmo.
    eexists _, _. split; [apply instantiate_given_cosmo; assumption |].
    split; [exact Hcosmo |]. split.
    + intros n. apply attr_insert.
    + intros l [o Hl]. cbn [heap]. rewrite lookup_insert_ne; [reflexivity |].
      intros <-. rewrite new_instance_fresh in Hl. discriminate.
Qed.

(** ** Facts about the two classes at hand *)

Ltac concrete_by_computation :=
  split; [apply subclass_direct | split; [vm_compute; reflexivity | reflexivity]].

Lemma GalaxyPop_concrete : concrete_subclass GalaxyPop_cls.
Proof. concrete_by_computation. Qed.

Lemma base_abstractmethods :
  abstractmethods LensedPopulationBase_cls = list_to_set abstract_operations.
Proof. vm_compute. reflexivity. Qed.

Lemma base_is_abstract : abstractmethods LensedPopulationBase_cls ≠ ∅.
Proof.
  rewrite base_abstractmethods. intros Heq.
  assert (Hin : "deflector_number" ∈ (∅ : gset string))
    by (rewrite <- Heq; vm_compute; tauto).
  revert Hin. apply not_elem_of_empty.
Qed.

(** ** The constructor *)

(** C1: with [sky_area] left out or passed as [None], constructing through a
    concrete subclass raises [ValueError] whatever the other six arguments
    and the state are, and hence returns no object. *)
Theorem missing_sky_area_raises (c : pyclass) (a : init_args) (st : state) :
  concrete_subclass c →
  bound (arg_sky_area a) = VNone →
  (∃ st', instantiate c a st = (Raise (ValueError no_sky_area_msg), st'))
  ∧ (∀ v st', instantiate c a st ≠ (Ret v, st')).
Proof.
  intros Hc Hsky. rewrite (instantiate_no_sky_area c a st Hc Hsky).
  split; [eexists; reflexivity | discriminate].
Qed.

Lemma missing_sky_area_raises_witness :
  concrete_subclass GalaxyPop_cls
  ∧ bound (arg_sky_area args_no_sky_area) = VNone
  ∧ (∃ st', instantiate GalaxyPop_cls args_no_sky_area st_with_cosmo
            = (Raise (ValueError no_sky_area_msg), st'))
  ∧ (∀ v st', instantiate GalaxyPop_cls args_no_sky_area st_with_cosmo ≠ (Ret v, st')).
Proof.
  split; [concrete_by_computation |]. split; [reflexivity |].
  apply missing_sky_area_raises; [concrete_by_computation | reflexivity].
Defined.

(** C2: with a [sky_area] that is not [None] and [cosmo] left out or [None],
    construction succeeds, exactly one warning is added to those already
    emitted, and the stored [cosmo] is a flat Lambda-CDM model built with
    [H0 = 70] and [Om0 = 0.3]. *)
Theorem default_cosmology (c : pyclass) (a : init_args) (st : state) :
  concrete_subclass c →
  bound (arg_sky_area a) ≠ VNone →
  bound (arg_cosmo a) = VNone →
  ∃ self st' cv,
    instantiate c a st = (Ret (VRef self), st')
    ∧ warnings st' = warnings st ++ [no_cosmo_msg]
    ∧ attr st' self "cosmo" = Some cv
    ∧ is_FlatLambdaCDM st' cv (VInt 70) (VFloat 0.3).
Proof.
  intros Hc Hsky Hcosmo.
  destruct (instantiate_default_cosmo c a st Hc Hsky Hcosmo)
    as (k & Hk & _ & Hrun).
  eexists _, _, (VRef k). split; [exact Hrun |]. split; [reflexivity |]. split.
  - rewrite attr_insert_ne by congruence. apply lookup_insert_eq.
  - exists k. split; [reflexivity |]. split.
    + cbn [heap]. now rewrite lookup_insert_eq.
    + rewrite !attr_insert. split; reflexivity.
Qed.

Lemma default_cosmology_witness :
  concrete_subclass GalaxyPop_cls
  ∧ bound (Some (VFloat 0.1)) ≠ VNone
  ∧ bound None = VNone
  ∧ ∃ self st' cv,
      instantiate GalaxyPop_cls
        (args_sky_area_only (VFloat 0.1)) st0
      = (Ret (VRef self), st')
      ∧ warnings st' = warnings st0 ++ [no_cosmo_msg]
      ∧ attr st' self "cosmo" = Some cv
      ∧ is_FlatLambdaCDM st' cv (VInt 70) (VFloat 0.3).
Proof.
  split; [concrete_by_computation |]. split; [discriminate |].
  split; [reflexivity |].
  apply (default_cosmology GalaxyPop_cls
           (args_sky_area_only (VFloat 0.1)) st0);
    [concrete_by_computation | discriminate | reflexivity].
Defined.

(** C3: with a [sky_area] and a [cosmo] that are both not [None],
    construction succeeds, no warning is emitted, the stored [cosmo] is the
    very value passed in (the same reference), and no object that existed
    before the call is touched. *)
Theorem given_cosmology_stored (c : pyclass) (a : init_args) (st : state)
    (cosmo : value) :
  concrete_subclass c →
  bound (arg_sky_area a) ≠ VNone →
  arg_cosmo a = Some cosmo →
  cosmo ≠ VNone →
  ∃ self st',
    instantiate c a st = (Ret (VRef self), st')
    ∧ warnings st' = warnings st
    ∧ attr st' self "cosmo" = Some cosmo
    ∧ (∀ l, is_Some (heap st !! l) → heap st' !! l = heap st !! l).
Proof.
  intros Hc Hsky Harg Hcosmo.
  assert (Hb : bound (arg_cosmo a) = cosmo) by (now rewrite Harg).
  eexists _, _. split.
  - apply instantiate_given_cosmo; [exact Hc | exact Hsky | now rewrite Hb].
  - split; [reflexivity |]. split.
    + rewrite attr_insert, Hb. apply lookup_insert_eq.
    + intros l [o Hl]. cbn [heap]. rewrite lookup_insert_ne; [reflexivity |].
      intros <-. rewrite new_instance_fresh in Hl. discriminate.
Qed.

Lemma given_cosmology_stored_witness :
  concrete_subclass GalaxyPop_cls
  ∧ bound (Some (VFloat 0.1)) ≠ VNone
  ∧ VRef 1%positive ≠ VNone
  ∧ ∃ self st',
      instantiate GalaxyPop_cls
        args_with_cosmo
        st_with_cosmo
      = (Ret (VRef self), st')
      ∧ warnings st' = warnings st_with_cosmo
      ∧ attr st' self "cosmo" = Some (VRef 1%positive)
      ∧ (∀ l, is_Some (heap st_with_cosmo !! l) →
              heap st' !! l = heap st_with_cosmo !! l).
Proof.
  split; [concrete_by_computation |]. split; [discriminate |].
  split; [discriminate |].
  apply (given_cosmology_stored GalaxyPop_cls
           args_with_cosmo
           st_with_cosmo (VRef 1%positive));
    [concrete_by_computation | discriminate | reflexivity | discriminate].
Defined.

Ltac lookup_dict :=
  unfold optional_dict;
  repeat (rewrite lookup_insert_ne by discriminate);
  try apply lookup_insert_eq; try reflexivity.

Lemma stored_as_given_bound st l n a :
  attr st l n = Some (bound a) → stored_as_given st l n a.
Proof. destruct a; exact id. Qed.

(** C4: on every construction that succeeds, each of [lightcurve_time],
    [sn_type], [sn_absolute_mag_band], [sn_absolute_zpsys] and [sn_modeldir]
    is stored as [None] when the caller left it out and as the very value
    passed otherwise; no value of these arguments makes the call fail. *)
Theorem optional_fields_stored (c : pyclass) (a : init_args) (st : state) :
  concrete_subclass c →
  bound (arg_sky_area a) ≠ VNone →
  ∃ self st',
    instantiate c a st = (Ret (VRef self), st')
    ∧ stored_as_given st' self "lightcurve_time" (arg_lightcurve_time a)
    ∧ stored_as_given st' self "sn_type" (arg_sn_type a)
    ∧ stored_as_given st' self "sn_absolute_mag_band" (arg_sn_absolute_mag_band a)
    ∧ stored_as_given st' self "sn_absolute_zpsys" (arg_sn_absolute_zpsys a)
    ∧ stored_as_given st' self "sn_modeldir" (arg_sn_modeldir a).
Proof.
  intros Hc Hsky.
  destruct (instantiate_success c a st Hc Hsky) as (st' & cv & Hrun & _ & Hattr & _).
  exists (new_instance st), st'. split; [exact Hrun |].
  repeat split; apply stored_as_given_bound; rewrite Hattr; lookup_dict.
Qed.

Lemma optional_fields_stored_witness :
  concrete_subclass GalaxyPop_cls
  ∧ bound (Some (VFloat 0.1)) ≠ VNone
  ∧ ∃ self st',
      instantiate GalaxyPop_cls
        args_supernova st0
      = (Ret (VRef self), st')
      ∧ attr st' self "lightcurve_time" = Some VNone
      ∧ attr st' self "sn_type" = Some (VStr "Ia")
      ∧ attr st' self "sn_absolute_mag_band" = Some (VStr "bessellb")
      ∧ attr st' self "sn_absolute_zpsys" = Some VNone
      ∧ attr st' self "sn_modeldir" = Some (VStr "/data/SALT3.NIR_WAVEEXT").
Proof.
  split; [concrete_by_computation |]. split; [discriminate |].
  apply (optional_fields_stored GalaxyPop_cls
           args_supernova st0);
    [concrete_by_computation | discriminate].
Defined.

(** C5: whenever construction through a concrete subclass returns, it
    returns a reference to an instance whose [sky_area] and [cosmo]
    attributes are both set and both different from [None]. *)
Theorem constructed_fields_not_None (c : pyclass) (a : init_args)
    (st st' : state) (v : value) :
  concrete_subclass c →
  instantiate c a st = (Ret v, st') →
  ∃ self sky cosmo,
    v = VRef self
    ∧ attr st' self "sky_area" = Some sky ∧ sky ≠ VNone
    ∧ attr st' self "cosmo" = Some cosmo ∧ cosmo ≠ VNone.
Proof.
  intros Hc Hrun.
  destruct (is_none (bound (arg_sky_area a))) eqn:Hsky.
  - apply is_none_true in Hsky.
    rewrite (instantiate_no_sky_area c a st Hc Hsky) in Hrun. discriminate.
  - apply is_none_false in Hsky.
    destruct (instantiate_success c a st Hc Hsky)
      as (st1 & cv & Hrun1 & Hcv & Hattr & _).
    rewrite Hrun1 in Hrun. injection Hrun as <- <-.
    exists (new_instance st), (bound (arg_sky_area a)), cv.
    split; [reflexivity |]. rewrite !Hattr.
    split; [lookup_dict |]. split; [exact Hsky |].
    split; [lookup_dict | exact Hcv].
Qed.

Lemma constructed_fields_not_None_witness :
  concrete_subclass GalaxyPop_cls
  ∧ instantiate GalaxyPop_cls
      (args_sky_area_only (VFloat 0.1)) st0
    = (Ret (VRef 1%positive),
       (instantiate GalaxyPop_cls
          (args_sky_area_only (VFloat 0.1)) st0).2)
  ∧ ∃ self sky cosmo,
      VRef 1%positive = VRef self
      ∧ attr (instantiate GalaxyPop_cls
                (args_sky_area_only (VFloat 0.1)) st0).2
             self "sky_area" = Some sky
      ∧ sky ≠ VNone
      ∧ attr (instantiate GalaxyPop_cls
                (args_sky_area_only (VFloat 0.1)) st0).2
             self "cosmo" = Some cosmo
      ∧ cosmo ≠ VNone.
Proof.
  split; [concrete_by_computation |]. split; [vm_compute; reflexivity |].
  apply (constructed_fields_not_None GalaxyPop_cls
           (args_sky_area_only (VFloat 0.1)) st0);
    [concrete_by_computation | vm_compute; reflexivity].
Defined.

(** C8: construction through a concrete subclass raises exactly when
    [sky_area] is left out or is [None]; any other value, whatever its type
    or sign, is accepted and stored as it is. *)
Theorem raises_iff_sky_area_None (c : pyclass) (a : init_args) (st : state) :
  concrete_subclass c →
  ((∃ e st', instantiate c a st = (Raise e, st')) ↔ bound (arg_sky_area a) = VNone)
  ∧ (∀ sky, arg_sky_area a = Some sky → sky ≠ VNone →
       ∃ self st', instantiate c a st = (Ret (VRef self), st')
                   ∧ attr st' self "sky_area" = Some sky).
Proof.
  intros Hc. split; [split |].
  - intros (e & st' & Hrun).
    destruct (is_none (bound (arg_sky_area a))) eqn:Hsky;
      [now apply is_none_true |].
    apply is_none_false in Hsky.
    destruct (instantiate_success c a st Hc Hsky) as (st1 & cv & Hrun1 & _).
    rewrite Hrun1 in Hrun. discriminate.
  - intros Hsky. rewrite (instantiate_no_sky_area c a st Hc Hsky). eauto.
  - intros sky Harg Hsky.
    assert (Hb : bound (arg_sky_area a) = sky) by (now rewrite Harg).
    assert (Hne : bound (arg_sky_area a) ≠ VNone) by (now rewrite Hb).
    destruct (instantiate_success c a st Hc Hne) as (st1 & cv & Hrun1 & _ & Hattr & _).
    exists (new_instance st), st1. split; [exact Hrun1 |].
    rewrite Hattr, Hb. lookup_dict.
Qed.

Lemma raises_iff_sky_area_None_witness :
  concrete_subclass GalaxyPop_cls
  ∧ ((∃ e st', instantiate GalaxyPop_cls
                 (args_sky_area_only (VInt 0)) st0
               = (Raise e, st'))
     ↔ bound (Some (VInt 0)) = VNone)
  ∧ (∀ sky, Some (VInt 0) = Some sky → sky ≠ VNone →
       ∃ self st', instantiate GalaxyPop_cls
                     (args_sky_area_only (VInt 0)) st0
                   = (Ret (VRef self), st')
                   ∧ attr st' self "sky_area" = Some sky).
Proof.
  split; [concrete_by_computation |].
  apply (raises_iff_sky_area_None GalaxyPop_cls
           (args_sky_area_only (VInt 0)) st0).
  concrete_by_computation.
Defined.

(** An empty string is accepted as a sky area just the same. *)
Example empty_string_sky_area_accepted :
  ∃ st', instantiate GalaxyPop_cls
           (args_sky_area_only (VStr EmptyString)) st0
         = (Ret (VRef 1%positive), st')
         ∧ attr st' 1%positive "sky_area" = Some (VStr EmptyString).
Proof. eexists. split; vm_compute; reflexivity. Qed.

(** C9: when [sky_area] is [None] the constructor body fails after the five
    optional attributes have been assigned on the instance it was given:
    they are set in the state left by the failure, [sky_area] and [cosmo]
    are as they were, and no warning has been emitted, whatever [cosmo]
    is. *)
Theorem failure_after_optional_assignments (self : loc) (a : init_args)
    (st : state) :
  is_Some (heap st !! self) →
  bound (arg_sky_area a) = VNone →
  ∃ st',
    LensedPopulationBase.__init__ self a st = (Raise (ValueError no_sky_area_msg), st')
    ∧ attr st' self "lightcurve_time" = Some (bound (arg_lightcurve_time a))
    ∧ attr st' self "sn_type" = Some (bound (arg_sn_type a))
    ∧ attr st' self "sn_absolute_mag_band" = Some (bound (arg_sn_absolute_mag_band a))
    ∧ attr st' self "sn_absolute_zpsys" = Some (bound (arg_sn_absolute_zpsys a))
    ∧ attr st' self "sn_modeldir" = Some (bound (arg_sn_modeldir a))
    ∧ attr st' self "sky_area" = attr st self "sky_area"
    ∧ attr st' self "cosmo" = attr st self "cosmo"
    ∧ warnings st' = warnings st.
Proof.
  destruct st as [h w]. intros [[cn d] Hself] Hsky. cbn [heap] in Hself.
  rewrite <- (insert_id h self _ Hself).
  eexists. split; [apply init_no_sky_area; exact Hsky |].
  rewrite !attr_insert. repeat split; lookup_dict.
Qed.

Lemma failure_after_optional_assignments_witness :
  is_Some (heap st_new !! 1%positive)
  ∧ bound None = VNone
  ∧ ∃ st',
      LensedPopulationBase.__init__ 1%positive
        args_sn_type_only st_new
      = (Raise (ValueError no_sky_area_msg), st')
      ∧ attr st' 1%positive "lightcurve_time" = Some VNone
      ∧ attr st' 1%positive "sn_type" = Some (VStr "Ia")
      ∧ attr st' 1%positive "sn_absolute_mag_band" = Some VNone
      ∧ attr st' 1%positive "sn_absolute_zpsys" = Some VNone
      ∧ attr st' 1%positive "sn_modeldir" = Some VNone
      ∧ attr st' 1%positive "sky_area" = attr st_new 1%positive "sky_area"
      ∧ attr st' 1%positive "cosmo" = attr st_new 1%positive "cosmo"
      ∧ warnings st' = warnings st_new.
Proof.
  split; [vm_compute; eauto |]. split; [reflexivity |].
  apply (failure_after_optional_assignments 1%positive
           args_sn_type_only st_new);
    [vm_compute; eauto | reflexivity].
Defined.

(** ** Attributes after construction *)

Lemma setattr_attr st l n v :
  is_Some (heap st !! l) →
  ∃ st', setattr l n v st = (Ret tt, st') ∧ attr st' l n = Some v.
Proof.
  intros [o Ho]. eexists. split; [reflexivity |].
  unfold attr. cbn [heap]. rewrite lookup_alter_eq, Ho. cbn.
  apply lookup_insert_eq.
Qed.

Ltac each_name H :=
  repeat (apply elem_of_cons in H as [-> | H]); [.. | now apply elem_of_nil in H].

(** C6, counterexample: on an instance built with [sky_area = 1], the
    assignment [obj.sky_area = 2] goes through and changes the attribute, so
    the field is not read-only. *)
Lemma sky_area_not_read_only :
  ∃ self st1,
    instantiate GalaxyPop_cls
      (args_sky_area_only (VInt 1)) st0
    = (Ret (VRef self), st1)
    ∧ ¬ read_only st1 self "sky_area".
Proof.
  exists 1%positive,
    (instantiate GalaxyPop_cls
       (args_sky_area_only (VInt 1)) st0).2.
  split; [vm_compute; reflexivity |].
  intros Hro. specialize (Hro (VInt 2) _ _ eq_refl).
  vm_compute in Hro. discriminate.
Qed.

(** C6, as the code has it: a successful construction leaves all seven
    fields readable as attributes of the instance; they are ordinary
    attributes, so an assignment to any of them succeeds and replaces the
    value; and none of the four operations of the class changes the state,
    hence none mutates a field. *)
Theorem fields_plain_attributes_untouched_by_operations :
  (∀ c a st,
     concrete_subclass c →
     bound (arg_sky_area a) ≠ VNone →
     ∃ self st',
       instantiate c a st = (Ret (VRef self), st')
       ∧ ∀ n, n ∈ stored_fields →
           is_Some (attr st' self n)
           ∧ ∀ v, ∃ st'', setattr self n v st' = (Ret tt, st'')
                          ∧ attr st'' self n = Some v)
  ∧ (∀ self st, (LensedPopulationBase.select_lens_at_random self st).2 = st)
  ∧ (∀ self st, (LensedPopulationBase.deflector_number self st).2 = st)
  ∧ (∀ self st, (LensedPopulationBase.source_number self st).2 = st)
  ∧ (∀ self kw st, (LensedPopulationBase.draw_population self kw st).2 = st).
Proof.
  split; [| repeat split].
  intros c a st Hc Hsky.
  destruct (instantiate_success c a st Hc Hsky) as (st' & cv & Hrun & _ & Hattr & _).
  exists (new_instance st), st'. split; [exact Hrun |].
  intros n Hn.
  assert (Hsome : is_Some (attr st' (new_instance st) n)).
  { rewrite Hattr. unfold stored_fields in Hn. each_name Hn; eexists; lookup_dict. }
  split; [exact Hsome |].
  intros v. apply setattr_attr.
  destruct Hsome as [x Hx]. unfold attr in Hx.
  destruct (heap st' !! new_instance st); [eauto | discriminate].
Qed.

Lemma fields_plain_attributes_untouched_by_operations_witness :
  concrete_subclass GalaxyPop_cls
  ∧ bound (Some (VInt 1)) ≠ VNone
  ∧ ∃ self st',
      instantiate GalaxyPop_cls
        (args_sky_area_only (VInt 1)) st0
      = (Ret (VRef self), st')
      ∧ ∀ n, n ∈ stored_fields →
          is_Some (attr st' self n)
          ∧ ∀ v, ∃ st'', setattr self n v st' = (Ret tt, st'')
                         ∧ attr st'' self n = Some v.
Proof.
  split; [concrete_by_computation |]. split; [discriminate |].
  apply (proj1 fields_plain_attributes_untouched_by_operations GalaxyPop_cls
           (args_sky_area_only (VInt 1)) st0);
    [concrete_by_computation | discriminate].
Defined.

(** ** The abstract operations *)

Ltac in_list := apply list_elem_of_In; cbn; tauto.

Lemma call_base_operation c n self kw st :
  n ∈ abstract_operations →
  class_getattr c n = class_getattr LensedPopulationBase_cls n →
  n = "draw_population" ∨ kw = ∅ →
  call_method c n self kw st = (Ret VNone, st).
Proof.
  intros Hn Hget Hkw. unfold call_method. rewrite Hget.
  unfold abstract_operations in Hn.
  each_name Hn; vm_compute (class_getattr _ _); cbn [m_func call];
    try reflexivity;
    (destruct Hkw as [Hkw | ->]; [discriminate |]);
    rewrite decide_True by reflexivity; reflexivity.
Qed.

(** C7, counterexample: invoking the base-class [deflector_number] on an
    instance does not fail; it returns [None]. *)
Lemma base_deflector_number_does_not_fail :
  call_method LensedPopulationBase_cls "deflector_number" 1%positive ∅ st_new
  = (Ret VNone, st_new)
  ∧ ¬ (∃ e st', call_method LensedPopulationBase_cls "deflector_number"
                  1%positive ∅ st_new
                = (Raise e, st')).
Proof.
  assert (Hrun : call_method LensedPopulationBase_cls "deflector_number"
                   1%positive ∅ st_new = (Ret VNone, st_new))
    by (vm_compute; reflexivity).
  split; [exact Hrun |]. intros (e & st' & Hraise).
  rewrite Hrun in Hraise. discriminate.
Qed.

(** C7, as the code has it: instantiating [LensedPopulationBase] itself
    fails at once with a [TypeError] reporting the class and its four
    abstract methods, whatever the arguments, and leaves the state as it was
    (the constructor body does not run); invoking the base-class body of an
    abstract operation with arguments that fit its signature does not fail
    but returns [None]. *)
Theorem abstract_class_not_instantiable :
  (∀ a st,
     instantiate LensedPopulationBase_cls a st
     = (Raise (TypeError (AbstractClass "LensedPopulationBase"
                                        (list_to_set abstract_operations))), st))
  ∧ (∀ n self kw st,
       n ∈ abstract_operations →
       n = "draw_population" ∨ kw = ∅ →
       call_method LensedPopulationBase_cls n self kw st = (Ret VNone, st)).
Proof.
  split.
  - intros a st. unfold instantiate.
    rewrite decide_False by exact base_is_abstract.
    rewrite base_abstractmethods. reflexivity.
  - intros n self kw st Hn Hkw. now apply call_base_operation.
Qed.

Lemma abstract_class_not_instantiable_witness :
  "source_number" ∈ abstract_operations
  ∧ ("source_number" = "draw_population" ∨ (∅ : gmap string value) = ∅)
  ∧ instantiate LensedPopulationBase_cls (args_sky_area_only (VFloat 0.1)) st_new
    = (Raise (TypeError (AbstractClass "LensedPopulationBase"
                                       (list_to_set abstract_operations))), st_new)
  ∧ call_method LensedPopulationBase_cls "source_number" 1%positive ∅ st_new
    = (Ret VNone, st_new).
Proof.
  split; [in_list |]. split; [right; reflexivity |]. split.
  - apply (proj1 abstract_class_not_instantiable).
  - apply (proj2 abstract_class_not_instantiable);
      [in_list | right; reflexivity].
Defined.

(** C10: the body of each abstract operation is [pass]: called on any
    instance in any state it returns [None] and raises nothing, and so does
    a [super()] call from a subclass whose base resolves the operation to
    the [LensedPopulationBase] function. *)
Theorem base_operations_return_None :
  (∀ self st, LensedPopulationBase.select_lens_at_random self st = (Ret VNone, st))
  ∧ (∀ self st, LensedPopulationBase.deflector_number self st = (Ret VNone, st))
  ∧ (∀ self st, LensedPopulationBase.source_number self st = (Ret VNone, st))
  ∧ (∀ self kw st, LensedPopulationBase.draw_population self kw st = (Ret VNone, st))
  ∧ (∀ cn b ns n self kw st,
       n ∈ abstract_operations →
       class_getattr b n = class_getattr LensedPopulationBase_cls n →
       n = "draw_population" ∨ kw = ∅ →
       call_super (Class cn (Some b) ns) n self kw st = (Ret VNone, st)).
Proof.
  repeat split.
  intros cn b ns n self kw st Hn Hget Hkw. cbn [call_super].
  now apply call_base_operation.
Qed.

Lemma base_operations_return_None_witness :
  "draw_population" ∈ abstract_operations
  ∧ class_getattr LensedPopulationBase_cls "draw_population"
    = class_getattr LensedPopulationBase_cls "draw_population"
  ∧ ("draw_population" = "draw_population"
     ∨ ({[ "speed" := VStr "fast" ]} : gmap string value) = ∅)
  ∧ call_super GalaxyPop_cls "draw_population" 1%positive
      {[ "speed" := VStr "fast" ]} st_new
    = (Ret VNone, st_new).
Proof.
  split; [in_list |]. split; [reflexivity |].
  split; [left; reflexivity |].
  apply (proj2 (proj2 (proj2 (proj2 base_operations_return_None))));
    [in_list | reflexivity | left; reflexivity].
Defined.

(** ** Further properties of the constructor *)

Lemma instantiate_success_object c a st :
  concrete_subclass c →
  bound (arg_sky_area a) ≠ VNone →
  ∃ st' cv,
    instantiate c a st = (Ret (VRef (new_instance st)), st')
    ∧ heap st' !! new_instance st
      = Some (Obj (class_name c)
                  (<["cosmo" := cv]>
                   (<["sky_area" := bound (arg_sky_area a)]> (optional_dict a ∅)))).
Proof.
  intros Hc Hsky.
  destruct (is_none (bound (arg_cosmo a))) eqn:Hcosmo.
  - apply is_none_true in Hcosmo.
    destruct (instantiate_default_cosmo c a st Hc Hsky Hcosmo)
      as (k & Hk & _ & Hrun).
    eexists _, (VRef k). split; [exact Hrun |]. cbn [heap].
    rewrite lookup_insert_ne by exact Hk. apply lookup_insert_eq.
  - apply is_none_false in Hcosmo.
    eexists _, _. split; [apply instantiate_given_cosmo; assumption |].
    cbn [heap]. apply lookup_insert_eq.
Qed.

Ltac name_cases n :=
  repeat match goal with
         | |- context [<[?k := _]> _ !! n] =>
             destruct (decide (n = k)) as [-> | ?];
             [left; in_list
             | rewrite (lookup_insert_ne _ k n) by congruence]
         end.

Lemma optional_dict_keys a n :
  is_Some (optional_dict a ∅ !! n) ↔ n ∈ optional_fields.
Proof.
  split.
  - intros Hsome.
    assert (n ∈ optional_fields ∨ False) as [H | []]; [| exact H].
    revert Hsome. unfold optional_dict. name_cases n.
    rewrite lookup_empty. intros [x Hx]. discriminate.
  - intros Hn. unfold optional_fields in Hn. each_name Hn; eexists; lookup_dict.
Qed.

Lemma full_dict_keys a sky cv n :
  is_Some ((<["cosmo" := cv]> (<["sky_area" := sky]> (optional_dict a ∅))) !! n)
  ↔ n ∈ stored_fields.
Proof.
  split.
  - intros Hsome.
    assert (n ∈ stored_fields ∨ False) as [H | []]; [| exact H].
    revert Hsome. unfold optional_dict. name_cases n.
    rewrite lookup_empty. intros [x Hx]. discriminate.
  - intros Hn. unfold stored_fields in Hn. each_name Hn; eexists; lookup_dict.
Qed.

(** X1: a successful construction returns an instance of the subclass that
    was called, and that instance carries exactly the seven attributes the
    constructor assigns, no other (the [agn_driving_variability_model] of
    the docstring is never stored). *)
Theorem constructed_instance_attributes (c : pyclass) (a : init_args) (st : state) :
  concrete_subclass c →
  bound (arg_sky_area a) ≠ VNone →
  ∃ self st',
    instantiate c a st = (Ret (VRef self), st')
    ∧ obj_class <$> heap st' !! self = Some (class_name c)
    ∧ (∀ n, is_Some (attr st' self n) ↔ n ∈ stored_fields)
    ∧ attr st' self "agn_driving_variability_model" = None.
Proof.
  intros Hc Hsky.
  destruct (instantiate_success_object c a st Hc Hsky) as (st' & cv & Hrun & Hobj).
  exists (new_instance st), st'. split; [exact Hrun |].
  assert (Hkeys : ∀ n, is_Some (attr st' (new_instance st) n) ↔ n ∈ stored_fields).
  { intros n. unfold attr. rewrite Hobj. cbn. apply full_dict_keys. }
  split; [now rewrite Hobj |]. split; [exact Hkeys |].
  apply eq_None_not_Some. rewrite Hkeys. unfold stored_fields.
  intros Hin. apply list_elem_of_In in Hin. cbn in Hin.
  repeat (destruct Hin as [Hin | Hin]; [discriminate |]). exact Hin.
Qed.

Lemma constructed_instance_attributes_witness :
  concrete_subclass GalaxyPop_cls
  ∧ bound (arg_sky_area args_supernova) ≠ VNone
  ∧ ∃ self st',
      instantiate GalaxyPop_cls args_supernova st_with_cosmo = (Ret (VRef self), st')
      ∧ obj_class <$> heap st' !! self = Some (class_name GalaxyPop_cls)
      ∧ (∀ n, is_Some (attr st' self n) ↔ n ∈ stored_fields)
      ∧ attr st' self "agn_driving_variability_model" = None.
Proof.
  split; [concrete_by_computation |]. split; [discriminate |].
  apply (constructed_instance_attributes GalaxyPop_cls args_supernova st_with_cosmo);
    [concrete_by_computation | discriminate].
Defined.

(** X2: when construction fails for want of a sky area, the only trace in
    the store is the abandoned instance: it carries exactly the five optional
    attributes (neither [sky_area] nor [cosmo]), every other reference
    denotes what it denoted before, so no default cosmology has been
    created. *)
Theorem failed_construction_store (c : pyclass) (a : init_args) (st : state) :
  concrete_subclass c →
  bound (arg_sky_area a) = VNone →
  ∃ st',
    instantiate c a st = (Raise (ValueError no_sky_area_msg), st')
    ∧ heap st !! new_instance st = None
    ∧ (∀ n, is_Some (attr st' (new_instance st) n) ↔ n ∈ optional_fields)
    ∧ (∀ l, l ≠ new_instance st → heap st' !! l = heap st !! l).
Proof.
  intros Hc Hsky. eexists. split; [apply instantiate_no_sky_area; assumption |].
  split; [apply new_instance_fresh |]. split.
  - intros n. rewrite attr_insert. apply optional_dict_keys.
  - intros l Hl. cbn [heap]. now rewrite lookup_insert_ne by congruence.
Qed.

Lemma failed_construction_store_witness :
  concrete_subclass GalaxyPop_cls
  ∧ bound (arg_sky_area args_sn_type_only) = VNone
  ∧ ∃ st',
      instantiate GalaxyPop_cls args_sn_type_only st_with_cosmo
      = (Raise (ValueError no_sky_area_msg), st')
      ∧ heap st_with_cosmo !! new_instance st_with_cosmo = None
      ∧ (∀ n, is_Some (attr st' (new_instance st_with_cosmo) n) ↔ n ∈ optional_fields)
      ∧ (∀ l, l ≠ new_instance st_with_cosmo →
              heap st' !! l = heap st_with_cosmo !! l).
Proof.
  split; [concrete_by_computation |]. split; [reflexivity |].
  apply (failed_construction_store GalaxyPop_cls args_sn_type_only st_with_cosmo);
    [concrete_by_computation | reflexivity].
Defined.

Ltac skip_field Hn :=
  rewrite lookup_insert_ne
    by (let Heq := fresh in intros Heq; apply Hn; rewrite <- Heq; in_list).

Lemma other_attribute_kept a sky cv d n :
  n ∉ stored_fields →
  (<["cosmo" := cv]> (<["sky_area" := sky]> (optional_dict a d))) !! n = d !! n.
Proof. intros Hn. unfold optional_dict. do 7 skip_field Hn. reflexivity. Qed.

Lemma other_attribute_kept_optional a d n :
  n ∉ stored_fields → optional_dict a d !! n = d !! n.
Proof. intros Hn. unfold optional_dict. do 5 skip_field Hn. reflexivity. Qed.

(** X3: whatever its outcome, the constructor body run on an existing
    instance touches nothing but the seven attributes of that instance: every
    other object that existed keeps its content (the arguments passed in are
    never modified), every other attribute of the instance and its class are
    kept, and the warnings emitted earlier stay, followed by at most one new
    message. *)
Theorem constructor_frame (self : loc) (a : init_args) (st : state) :
  is_Some (heap st !! self) →
  let st' := (LensedPopulationBase.__init__ self a st).2 in
  (∀ l, l ≠ self → is_Some (heap st !! l) → heap st' !! l = heap st !! l)
  ∧ (∀ n, n ∉ stored_fields → attr st' self n = attr st self n)
  ∧ obj_class <$> heap st' !! self = obj_class <$> heap st !! self
  ∧ ∃ ws, warnings st' = warnings st ++ ws ∧ (length ws ≤ 1)%nat.
Proof.
  destruct st as [h w]. intros [[cn d] Hself]. cbn [heap] in Hself.
  rewrite <- (insert_id h self _ Hself). cbv zeta.
  destruct (is_none (bound (arg_sky_area a))) eqn:Hsky;
    [| destruct (is_none (bound (arg_cosmo a))) eqn:Hcosmo].
  - apply is_none_true in Hsky.
    pose proof (init_no_sky_area self cn d h w a Hsky) as Hrun.
    cbv zeta in Hrun. rewrite Hrun. cbn [snd heap warnings].
    split; [| split; [| split]].
    + intros l Hl _. now rewrite !lookup_insert_ne by congruence.
    + intros n Hn. rewrite !attr_insert. now apply other_attribute_kept_optional.
    + now rewrite !lookup_insert_eq.
    + exists []. split; [now rewrite app_nil_r | cbn; lia].
  - apply is_none_false in Hsky. apply is_none_true in Hcosmo.
    destruct (init_default_cosmo self cn d h w a Hsky Hcosmo)
      as (k & Hk & Hnew & Hrun).
    cbv zeta in Hrun. rewrite Hrun. cbn [snd heap warnings].
    split; [| split; [| split]].
    + intros l Hl [o Ho]. rewrite lookup_insert_ne in Ho by congruence.
      rewrite lookup_insert_ne by (intros ->; rewrite Hnew in Ho; discriminate).
      now rewrite !lookup_insert_ne by congruence.
    + intros n Hn. rewrite attr_insert_ne by congruence. rewrite attr_insert.
      now apply other_attribute_kept.
    + rewrite lookup_insert_ne by exact Hk. now rewrite !lookup_insert_eq.
    + exists [no_cosmo_msg]. split; [reflexivity | cbn; lia].
  - apply is_none_false in Hsky. apply is_none_false in Hcosmo.
    pose proof (init_given_cosmo self cn d h w a Hsky Hcosmo) as Hrun.
    cbv zeta in Hrun. rewrite Hrun. cbn [snd heap warnings].
    split; [| split; [| split]].
    + intros l Hl _. now rewrite !lookup_insert_ne by congruence.
    + intros n Hn. rewrite !attr_insert. now apply other_attribute_kept.
    + now rewrite !lookup_insert_eq.
    + exists []. split; [now rewrite app_nil_r | cbn; lia].
Qed.

Lemma constructor_frame_witness :
  is_Some (heap st_tagged !! 1%positive)
  ∧ (∀ l, l ≠ 1%positive → is_Some (heap st_tagged !! l) →
          heap (LensedPopulationBase.__init__ 1%positive args_with_cosmo st_tagged).2 !! l
          = heap st_tagged !! l)
  ∧ (∀ n, n ∉ stored_fields →
          attr (LensedPopulationBase.__init__ 1%positive args_with_cosmo st_tagged).2
               1%positive n
          = attr st_tagged 1%positive n)
  ∧ obj_class <$>
      heap (LensedPopulationBase.__init__ 1%positive args_with_cosmo st_tagged).2
        !! 1%positive
    = obj_class <$> heap st_tagged !! 1%positive
  ∧ ∃ ws,
      warnings (LensedPopulationBase.__init__ 1%positive args_with_cosmo st_tagged).2
      = warnings st_tagged ++ ws
      ∧ (length ws ≤ 1)%nat.
Proof.
  split; [vm_compute; eauto |].
  apply (constructor_frame 1%positive args_with_cosmo st_tagged).
  vm_compute. eauto.
Defined.

(** X4: two constructions in a row yield two different instances, and the
    second construction leaves every attribute of the first instance as it
    was. *)
Theorem successive_constructions_independent (c1 c2 : pyclass)
    (a1 a2 : init_args) (st : state) :
  concrete_subclass c1 →
  concrete_subclass c2 →
  bound (arg_sky_area a1) ≠ VNone →
  bound (arg_sky_area a2) ≠ VNone →
  ∃ self1 st1 self2 st2,
    instantiate c1 a1 st = (Ret (VRef self1), st1)
    ∧ instantiate c2 a2 st1 = (Ret (VRef self2), st2)
    ∧ self1 ≠ self2
    ∧ ∀ n, attr st2 self1 n = attr st1 self1 n.
Proof.
  intros Hc1 Hc2 Hsky1 Hsky2.
  destruct (instantiate_success_object c1 a1 st Hc1 Hsky1)
    as (st1 & cv1 & Hrun1 & Hobj1).
  destruct (instantiate_success c2 a2 st1 Hc2 Hsky2)
    as (st2 & cv2 & Hrun2 & _ & _ & Hframe).
  exists (new_instance st), st1, (new_instance st1), st2.
  split; [exact Hrun1 |]. split; [exact Hrun2 |]. split.
  - intros Heq. pose proof (new_instance_fresh st1) as Hfresh.
    rewrite <- Heq, Hobj1 in Hfresh. discriminate.
  - intros n. unfold attr. rewrite Hframe by (rewrite Hobj1; eauto). reflexivity.
Qed.

Lemma successive_constructions_independent_witness :
  concrete_subclass GalaxyPop_cls
  ∧ concrete_subclass BrightGalaxyPop_cls
  ∧ bound (arg_sky_area args_supernova) ≠ VNone
  ∧ bound (arg_sky_area args_with_cosmo) ≠ VNone
  ∧ ∃ self1 st1 self2 st2,
      instantiate GalaxyPop_cls args_supernova st_with_cosmo = (Ret (VRef self1), st1)
      ∧ instantiate BrightGalaxyPop_cls args_with_cosmo st1 = (Ret (VRef self2), st2)
      ∧ self1 ≠ self2
      ∧ ∀ n, attr st2 self1 n = attr st1 self1 n.
Proof.
  assert (Hbright : concrete_subclass BrightGalaxyPop_cls).
  { split; [apply subclass_step, subclass_direct |].
    split; [vm_compute; reflexivity | reflexivity]. }
  split; [concrete_by_computation |]. split; [exact Hbright |].
  split; [discriminate |]. split; [discriminate |].
  apply (successive_constructions_independent GalaxyPop_cls BrightGalaxyPop_cls
           args_supernova args_with_cosmo st_with_cosmo);
    [concrete_by_computation | exact Hbright | discriminate | discriminate].
Defined.

(** X5: the default cosmology is built anew at each construction: it is an
    object that did not exist before the call, different from the instance,
    and two instances constructed without a cosmology do not share it. *)
Theorem default_cosmology_not_shared (c1 c2 : pyclass) (a1 a2 : init_args)
    (st : state) :
  concrete_subclass c1 →
  concrete_subclass c2 →
  bound (arg_sky_area a1) ≠ VNone →
  bound (arg_sky_area a2) ≠ VNone →
  bound (arg_cosmo a1) = VNone →
  bound (arg_cosmo a2) = VNone →
  ∃ self1 st1 self2 st2 k1 k2,
    instantiate c1 a1 st = (Ret (VRef self1), st1)
    ∧ instantiate c2 a2 st1 = (Ret (VRef self2), st2)
    ∧ attr st2 self1 "cosmo" = Some (VRef k1)
    ∧ attr st2 self2 "cosmo" = Some (VRef k2)
    ∧ heap st !! k1 = None
    ∧ k1 ≠ self1
    ∧ k1 ≠ k2.
Proof.
  intros Hc1 Hc2 Hsky1 Hsky2 Hcosmo1 Hcosmo2.
  destruct (instantiate_default_cosmo c1 a1 st Hc1 Hsky1 Hcosmo1)
    as (k1 & Hk1 & Hnew1 & Hrun1).
  set (st1 := State _ (warnings st ++ [no_cosmo_msg])) in Hrun1.
  destruct (instantiate_default_cosmo c2 a2 st1 Hc2 Hsky2 Hcosmo2)
    as (k2 & Hk2 & Hnew2 & Hrun2).
  assert (Hself1 : is_Some (heap st1 !! new_instance st)).
  { subst st1. cbn [heap]. rewrite lookup_insert_ne by exact Hk1.
    rewrite lookup_insert_eq. eauto. }
  assert (Hne : new_instance st ≠ new_instance st1).
  { intros Heq. rewrite Heq, new_instance_fresh in Hself1.
    destruct Hself1 as [? ?]. discriminate. }
  eexists _, _, _, _, k1, k2.
  split; [exact Hrun1 |]. split; [exact Hrun2 |]. split; [| split; [| split; [| split]]].
  - unfold attr. cbn [heap].
    rewrite lookup_insert_ne
      by (intros ->; subst st1; cbn [heap] in Hnew2;
          rewrite lookup_insert_ne, lookup_insert_eq in Hnew2 by exact Hk1;
          discriminate).
    rewrite lookup_insert_ne by congruence.
    subst st1. cbn [heap]. rewrite lookup_insert_ne by exact Hk1.
    rewrite lookup_insert_eq. cbn. apply lookup_insert_eq.
  - rewrite attr_insert_ne by congruence. apply lookup_insert_eq.
  - exact Hnew1.
  - exact Hk1.
  - intros ->. subst st1. cbn [heap] in Hnew2.
    rewrite lookup_insert_eq in Hnew2. discriminate.
Qed.

Lemma default_cosmology_not_shared_witness :
  concrete_subclass GalaxyPop_cls
  ∧ bound (arg_sky_area (args_sky_area_only (VFloat 0.1))) ≠ VNone
  ∧ bound (arg_sky_area args_supernova) ≠ VNone
  ∧ bound (arg_cosmo (args_sky_area_only (VFloat 0.1))) = VNone
  ∧ bound (arg_cosmo args_supernova) = VNone
  ∧ ∃ self1 st1 self2 st2 k1 k2,
      instantiate GalaxyPop_cls (args_sky_area_only (VFloat 0.1)) st_with_cosmo
      = (Ret (VRef self1), st1)
      ∧ instantiate GalaxyPop_cls args_supernova st1 = (Ret (VRef self2), st2)
      ∧ attr st2 self1 "cosmo" = Some (VRef k1)
      ∧ attr st2 self2 "cosmo" = Some (VRef k2)
      ∧ heap st_with_cosmo !! k1 = None
      ∧ k1 ≠ self1
      ∧ k1 ≠ k2.
Proof.
  split; [concrete_by_computation |]. split; [discriminate |].
  split; [discriminate |]. split; [reflexivity |]. split; [reflexivity |].
  apply (default_cosmology_not_shared GalaxyPop_cls GalaxyPop_cls
           (args_sky_area_only (VFloat 0.1)) args_supernova st_with_cosmo);
    [concrete_by_computation | concrete_by_computation
    | discriminate | discriminate | reflexivity | reflexivity].
Defined.

(** ** Subclasses that leave an operation abstract *)

Lemma abstract_in_body cn b ns n m :
  ns !! n = Some m →
  isabstractmethod m = true →
  n ∈ abstractmethods (Class cn b ns).
Proof.
  intros Hns Habs. cbn [abstractmethods]. apply elem_of_union_l, elem_of_dom.
  exists m. apply map_lookup_filter_Some. split; [exact Hns |].
  cbn. rewrite Habs. exact I.
Qed.

Lemma abstract_name_is_abstract c n :
  n ∈ abstractmethods c → is_abstract_attr c n = true.
Proof.
  destruct c as [cn [b |] ns]; cbn [abstractmethods]; intros Hin;
    apply elem_of_union in Hin as [Hin | Hin].
  - apply elem_of_dom in Hin as [m Hm].
    apply map_lookup_filter_Some in Hm as [Hm Habs]. cbn in Habs.
    unfold is_abstract_attr. cbn [class_getattr]. rewrite Hm.
    now apply Is_true_true.
  - apply elem_of_filter in Hin as [Habs _]. now apply Is_true_true.
  - apply elem_of_dom in Hin as [m Hm].
    apply map_lookup_filter_Some in Hm as [Hm Habs]. cbn in Habs.
    unfold is_abstract_attr. cbn [class_getattr]. rewrite Hm.
    now apply Is_true_true.
  - now apply not_elem_of_empty in Hin.
Qed.

Lemma abstract_inherited cn b ns n :
  ns !! n = None →
  n ∈ abstractmethods b →
  n ∈ abstractmethods (Class cn (Some b) ns).
Proof.
  intros Hns Hin. cbn [abstractmethods]. apply elem_of_union_r, elem_of_filter.
  split; [| exact Hin].
  apply Is_true_true. unfold is_abstract_attr. cbn [class_getattr]. rewrite Hns.
  apply abstract_name_is_abstract in Hin. exact Hin.
Qed.

Lemma abstract_or_implemented_step cn b ns n :
  abstract_or_implemented b n →
  abstract_or_implemented (Class cn (Some b) ns) n.
Proof.
  intros Hb. destruct (ns !! n) as [m |] eqn:Hns.
  - destruct (isabstractmethod m) eqn:Habs.
    + left. eapply abstract_in_body; eassumption.
    + right. exists m. cbn [class_getattr]. now rewrite Hns.
  - destruct Hb as [Hin | (m & Hget & Habs)].
    + left. now apply abstract_inherited.
    + right. exists m. cbn [class_getattr]. now rewrite Hns.
Qed.

Lemma subclass_abstract_or_implemented c n :
  subclass_of LensedPopulationBase_cls c →
  n ∈ abstract_operations →
  abstract_or_implemented c n.
Proof.
  intros Hsub Hn. induction Hsub as [cn ns | cn c ns Hsub IH].
  - apply abstract_or_implemented_step. left.
    rewrite base_abstractmethods. now apply elem_of_list_to_set.
  - now apply abstract_or_implemented_step.
Qed.

Lemma base_operation_is_abstract n :
  n ∈ abstract_operations →
  ∃ m, class_getattr LensedPopulationBase_cls n = Some m
       ∧ isabstractmethod m = true.
Proof.
  intros Hn. unfold abstract_operations in Hn.
  each_name Hn; eexists; split; reflexivity.
Qed.

(** X8: along a chain of single-base classes deriving from
    [LensedPopulationBase], a class on which one of the four operations still
    resolves to the abstract function declared by [LensedPopulationBase]
    cannot be instantiated: the attempt raises a [TypeError] that reports the
    class and its abstract methods, that operation among them, and leaves the
    state as it was. *)
Theorem unimplemented_operation_blocks_instantiation (c : pyclass) (n : string)
    (a : init_args) (st : state) :
  subclass_of LensedPopulationBase_cls c →
  n ∈ abstract_operations →
  class_getattr c n = class_getattr LensedPopulationBase_cls n →
  n ∈ abstractmethods c
  ∧ instantiate c a st
    = (Raise (TypeError (AbstractClass (class_name c) (abstractmethods c))), st).
Proof.
  intros Hsub Hn Hget.
  assert (Hin : n ∈ abstractmethods c).
  { destruct (subclass_abstract_or_implemented c n Hsub Hn)
      as [Hin | (m & Hm & Hconc)]; [exact Hin |].
    destruct (base_operation_is_abstract n Hn) as (m' & Hget' & Habs').
    rewrite Hget, Hget' in Hm. injection Hm as ->. congruence. }
  split; [exact Hin |].
  unfold instantiate. rewrite decide_False; [reflexivity |].
  intros Hempty. rewrite Hempty in Hin. now apply not_elem_of_empty in Hin.
Qed.

Lemma unimplemented_operation_blocks_instantiation_witness :
  subclass_of LensedPopulationBase_cls FaintPartialPop_cls
  ∧ "source_number" ∈ abstract_operations
  ∧ class_getattr FaintPartialPop_cls "source_number"
    = class_getattr LensedPopulationBase_cls "source_number"
  ∧ "source_number" ∈ abstractmethods FaintPartialPop_cls
  ∧ instantiate FaintPartialPop_cls (args_sky_area_only (VFloat 0.1)) st_with_cosmo
    = (Raise (TypeError (AbstractClass (class_name FaintPartialPop_cls)
                                       (abstractmethods FaintPartialPop_cls))),
       st_with_cosmo).
Proof.
  split; [apply subclass_step, subclass_direct |]. split; [in_list |].
  split; [reflexivity |].
  apply (unimplemented_operation_blocks_instantiation FaintPartialPop_cls
           "source_number");
    [apply subclass_step, subclass_direct | in_list | reflexivity].
Defined.
